(** * Two ROOT tutorials: TMVACrossEvaluation.C and simple.cxx

    A shallow embedding of the two tutorial programs

      - [tutorials/tmva/TMVACrossEvaluation.C]: the toy data generator
        [genTree], the configuration of the data loader and of the k-fold
        cross evaluation, and the split expression that assigns events to
        folds;
      - [tutorials/v7/simple.cxx]: create, fill, fit and write a histogram.

    The programs are glue code around the analysis framework.  Calls into the
    framework are recorded, in program order, in a trace; what the framework
    does inside a call is not part of the model, with one exception: the
    evaluation of the split expression, which is modelled as the C++
    arithmetic the expression denotes. *)

From Stdlib Require Import ZArith QArith List String Ascii Bool Lia DecimalString.
From Equations Require Import Equations.
Import ListNotations.

Local Open Scope string_scope.
Local Open Scope list_scope.
Local Open Scope Z_scope.

(* ===================================================================== *)
(** * Machine integers: [Int_t], [UInt_t] and the C++ [int]              *)
(* ===================================================================== *)

Module MachineInt.

(** [Int_t] and [int] are 32-bit signed, [UInt_t] is 32-bit unsigned. *)
Definition Int_t_min : Z := - 2 ^ 31.
Definition Int_t_max : Z := 2 ^ 31 - 1.
Definition UInt_t_modulus : Z := 2 ^ 32.

Definition in_Int_t (v : Z) : Prop := Int_t_min <= v <= Int_t_max.
Definition in_UInt_t (v : Z) : Prop := 0 <= v < UInt_t_modulus.

Definition in_Int_tb (v : Z) : bool := (Int_t_min <=? v) && (v <=? Int_t_max).

(** Unsigned arithmetic wraps around modulo 2^32. *)
Definition wrap_UInt_t (v : Z) : Z := v mod UInt_t_modulus.

(** The four bytes of a [UInt_t] read back as an [Int_t]. *)
Definition as_Int_t (u : Z) : Z :=
  if u <=? Int_t_max then u else u - UInt_t_modulus.

End MachineInt.

(* ===================================================================== *)
(** * Split expressions                                                  *)
(* ===================================================================== *)

Module SplitExpr.
Import MachineInt.

(** The fragment of the formula language that split expressions of the
    tutorial use: named parameters, the conversion [int(.)], the function
    [fabs(.)] and the remainder operator [%]. *)
Inductive formula : Type :=
| Par  (name : string)
| Int  (a : formula)
| Fabs (a : formula)
| Mod  (a b : formula).

(** ** Concrete syntax *)

Inductive token : Type :=
| TId (s : string)
| TLParen | TRParen
| TLBrack | TRBrack
| TPercent.

Definition is_ident_char (c : ascii) : bool :=
  let n := nat_of_ascii c in
  (((48 <=? n) && (n <=? 57)) || ((65 <=? n) && (n <=? 90)) ||
   ((97 <=? n) && (n <=? 122)) || (n =? 95))%nat.

Definition punct (c : ascii) : option token :=
  if Ascii.eqb c "(" then Some TLParen
  else if Ascii.eqb c ")" then Some TRParen
  else if Ascii.eqb c "[" then Some TLBrack
  else if Ascii.eqb c "]" then Some TRBrack
  else if Ascii.eqb c "%" then Some TPercent
  else None.

Definition flush (word : string) (ts : list token) : list token :=
  if String.eqb word "" then ts else TId word :: ts.

(** [tokens s word] cuts [s] into tokens; [word] is the identifier read so
    far.  Blanks separate tokens, any other character is an error. *)
Fixpoint tokens (s : string) (word : string) : option (list token) :=
  match s with
  | EmptyString => Some (flush word [])
  | String c rest =>
      if is_ident_char c then tokens rest (word ++ String c "")
      else
        match punct c with
        | Some t => option_map (fun ts => flush word (t :: ts)) (tokens rest "")
        | None =>
            if Ascii.eqb c " " then option_map (flush word) (tokens rest "")
            else None
        end
  end.

Definition apply_function (f : string) (a : formula) : option formula :=
  if String.eqb f "int" then Some (Int a)
  else if String.eqb f "fabs" then Some (Fabs a)
  else None.

(** Recursive descent:
      expr ::= atom ('%' atom)*
      atom ::= '[' ident ']' | ident '(' expr ')' | ident | '(' expr ')'
    A bare identifier names the same quantity as the bracketed form. *)
Fixpoint parse_expr (fuel : nat) (ts : list token) : option (formula * list token) :=
  match fuel with
  | O => None
  | S fuel' =>
      match parse_atom fuel' ts with
      | Some (a, rest) => parse_mods fuel' a rest
      | None => None
      end
  end
with parse_atom (fuel : nat) (ts : list token) : option (formula * list token) :=
  match fuel with
  | O => None
  | S fuel' =>
      match ts with
      | TLBrack :: TId x :: TRBrack :: rest => Some (Par x, rest)
      | TId f :: TLParen :: rest =>
          match parse_expr fuel' rest with
          | Some (a, TRParen :: rest') =>
              option_map (fun e => (e, rest')) (apply_function f a)
          | _ => None
          end
      | TId x :: rest => Some (Par x, rest)
      | TLParen :: rest =>
          match parse_expr fuel' rest with
          | Some (a, TRParen :: rest') => Some (a, rest')
          | _ => None
          end
      | _ => None
      end
  end
with parse_mods (fuel : nat) (lhs : formula) (ts : list token) : option (formula * list token) :=
  match fuel with
  | O => None
  | S fuel' =>
      match ts with
      | TPercent :: rest =>
          match parse_atom fuel' rest with
          | Some (b, rest') => parse_mods fuel' (Mod lhs b) rest'
          | None => None
          end
      | _ => Some (lhs, ts)
      end
  end.

(** Modelled from the spec: the reading of an expression's text, which the
    formula parser of the framework does and which is not in src/.  The
    grammar covers what the expression of the tutorial is written in. *)
Definition parse (s : string) : option formula :=
  match tokens s "" with
  | Some ts =>
      match parse_expr (3 * List.length ts + 3) ts with
      | Some (f, []) => Some f
      | _ => None
      end
  | None => None
  end.

(** ** Parameters of a formula *)

Fixpoint params (f : formula) : list string :=
  match f with
  | Par x => [x]
  | Int a | Fabs a => params a
  | Mod a b => params a ++ params b
  end.

(** The number of folds is available under two names; every other
    parameter refers to a field (variable or spectator) of the event. *)
Definition is_NumFolds (name : string) : bool :=
  String.eqb name "NumFolds" || String.eqb name "numFolds".

Definition fields (f : formula) : list string :=
  filter (fun x => negb (is_NumFolds x)) (params f).

(** ** Evaluation *)

Definition env : Type := string -> option Z.

Definition bind {A B : Type} (m : option A) (k : A -> option B) : option B :=
  match m with Some a => k a | None => None end.

Notation "x <- m ;; k" := (bind m (fun x => k))
  (at level 61, m at next level, right associativity).

(** [int(v)]: conversion to the 32-bit [int]; a value that does not fit has
    no defined result. *)
Definition to_int (v : Z) : option Z :=
  if in_Int_tb v then Some v else None.

(** [a % b] on [int] operands: the remainder of the division truncated
    towards zero; undefined for a zero divisor and where the quotient
    overflows. *)
Definition remainder (a b : Z) : option Z :=
  if b =? 0 then None
  else if (a =? Int_t_min) && (b =? -1) then None
  else Some (Z.rem a b).

(** Modelled from the spec: the evaluator of split expressions, which is
    part of the framework and not of the tutorial.  The spec reads the
    expression as arithmetic on the event identifier and the number of
    folds; values are the integers the identifier and the fold count range
    over, [fabs] is the absolute value, [int] the C++ conversion to [int],
    and [%] the C++ remainder, whose operands are [int]s. *)
Fixpoint eval (rho : env) (f : formula) : option Z :=
  match f with
  | Par x => rho x
  | Int a => v <- eval rho a ;; to_int v
  | Fabs a => v <- eval rho a ;; Some (Z.abs v)
  | Mod a b =>
      va <- eval rho a ;;
      vb <- eval rho b ;;
      ia <- to_int va ;;
      ib <- to_int vb ;;
      remainder ia ib
  end.

(** Modelled from the spec: the parameters as the cross evaluation, which
    is not in src/, sets them for one event.  The header of the tutorial
    describes them: the expression sees the spectators and variables of the
    data loader, here the spectator [eventID], and the number of folds under
    the names [NumFolds] and [numFolds]. *)
Definition event_env (eventID numFolds : Z) : env :=
  fun name =>
    if is_NumFolds name then Some numFolds
    else if String.eqb name "eventID" then Some eventID
    else None.

(** The value of the split expression [s] under the parameters [rho]. *)
Definition fold_in (s : string) (rho : env) : option Z :=
  f <- parse s ;; eval rho f.

(** The fold of an event under the split expression [s]. *)
Definition fold_of (s : string) (numFolds eventID : Z) : option Z :=
  fold_in s (event_env eventID numFolds).

(** The fold as the specification computes it: the arithmetic expression
    int(fabs(eventID)) % numFolds on integers, that is the remainder of the
    absolute value of the identifier by the number of folds. *)
Definition spec_fold (eventID numFolds : Z) : Z := Z.abs eventID mod numFolds.

(** Two parameter settings that give the event identifier and the
    number of folds the same values and differ in everything else. *)
Definition rho_a : env :=
  fun name =>
    if String.eqb name "eventID" then Some 7
    else if String.eqb name "NumFolds" then Some 2
    else if String.eqb name "x" then Some 5
    else None.

Definition rho_b : env :=
  fun name =>
    if String.eqb name "eventID" then Some 7
    else if String.eqb name "NumFolds" then Some 2
    else if String.eqb name "y" then Some (-9)
    else if String.eqb name "numFolds" then Some 4
    else None.

End SplitExpr.

(* ===================================================================== *)
(** * What the tutorial takes from the framework                         *)
(* ===================================================================== *)

(** Floating-point numbers and the random generator are used but not
    inspected by the tutorial: they are an interface. *)
Class Toolkit : Type := {
  Double_t : Type;
  (** the value of a literal of the program text *)
  lit : Q -> Double_t;
  (** [TRandom3 rng(seed)] and [rng.Gaus(mean, sigma)], which returns a sample
      and advances the generator.  A seed other than 0 fixes the generator;
      with seed 0 the framework takes a new seed at each construction, and
      [TRandom3_new 0] stands for one such generator: two constructions
      with seed 0 are not comparable through it. *)
  TRandom3 : Type;
  TRandom3_new : Z -> TRandom3;
  Gaus : TRandom3 -> Double_t -> Double_t -> Double_t * TRandom3
}.

(** A toolkit to run the programs with: rationals for floating-point
    numbers, and a generator that counts its draws and returns the mean. *)
#[export] Instance counting_toolkit : Toolkit :=
  {| Double_t := Q;
     lit := fun q => q;
     TRandom3 := Z;
     TRandom3_new := fun seed => seed;
     Gaus := fun r mean _ => (mean, r + 1) |}.

(* ===================================================================== *)
(** * Trees and the toy data generator [genTree]                         *)
(* ===================================================================== *)

Module Tree.
Import MachineInt.

Section WithToolkit.
Context {T : Toolkit}.

(** The local variables of [genTree] that branches are attached to. *)
Inductive address : Type := addr_x | addr_y | addr_eventID.

(** A memory cell as the program declares it. *)
Inductive cell : Type :=
| CellD (v : Double_t)     (* Double_t *)
| CellU (u : Z).           (* UInt_t *)

(** A value stored in a tree, typed by the leaf list of its branch.  A
    cell read at a type for which the tutorial has no use is kept as it
    is. *)
Inductive leaf : Type :=
| LeafD (v : Double_t)     (* leaf type /D *)
| LeafI (v : Z)            (* leaf type /I, an Int_t *)
| LeafRaw (code : option ascii) (c : cell).

Record branch : Type := mkBranch {
  bname : string;
  baddr : option address;
  leaflist : string
}.

Definition entry : Type := list (string * leaf).

Record TTree : Type := mkTTree {
  branches : list branch;
  entries : list entry
}.

(** The stack frame of [genTree]. *)
Record frame : Type := mkFrame {
  rng : TRandom3;
  x : Double_t;
  y : Double_t;
  eventID : Z;
  data : TTree
}.

Definition set_data (fr : frame) (t : TTree) : frame :=
  {| rng := rng fr; x := x fr; y := y fr; eventID := eventID fr; data := t |}.

Definition load (fr : frame) (a : address) : cell :=
  match a with
  | addr_x => CellD (x fr)
  | addr_y => CellD (y fr)
  | addr_eventID => CellU (eventID fr)
  end.

(** The type code of a leaf list such as "x/D": its last character. *)
Fixpoint type_code (leaflist : string) : option ascii :=
  match leaflist with
  | EmptyString => None
  | String c EmptyString => Some c
  | String _ rest => type_code rest
  end.

Definition read_leaf (code : option ascii) (c : cell) : leaf :=
  match code, c with
  | Some "D"%char, CellD v => LeafD v
  | Some "I"%char, CellU u => LeafI (as_Int_t u)
  | _, _ => LeafRaw code c
  end.

(** [new TTree()] *)
Definition TTree_new : TTree := {| branches := []; entries := [] |}.

(** [data->Branch(name, &var, leaflist)] *)
Definition Branch (name : string) (a : address) (ll : string) (t : TTree) : TTree :=
  {| branches := branches t ++ [mkBranch name (Some a) ll];
     entries := entries t |}.

(** [data->Fill()]: one entry with the current content of the variable of
    every attached branch. *)
Definition read_branch (fr : frame) (b : branch) : list (string * leaf) :=
  match baddr b with
  | Some a => [(bname b, read_leaf (type_code (leaflist b)) (load fr a))]
  | None => []
  end.

Definition Fill (fr : frame) (t : TTree) : TTree :=
  {| branches := branches t;
     entries := entries t ++ [flat_map (read_branch fr) (branches t)] |}.

(** [data->ResetBranchAddresses()] *)
Definition ResetBranchAddresses (t : TTree) : TTree :=
  {| branches := map (fun b => mkBranch (bname b) None (leaflist b)) (branches t);
     entries := entries t |}.

Definition GetEntries (t : TTree) : Z := Z.of_nat (List.length (entries t)).

(** The body of the loop of [genTree]. *)
Definition loop_body (offset scale : Double_t) (fr : frame) : frame :=
  let '(vx, r1) := Gaus (rng fr) offset scale in
  let '(vy, r2) := Gaus r1 offset scale in
  let fr' := {| rng := r2; x := vx; y := vy;
                eventID := wrap_UInt_t (eventID fr + 1);
                data := data fr |} in
  set_data fr' (Fill fr' (data fr')).

(** [for (Int_t n = 0; n < nPoints; ++n) { ... }], entered at counter [n].
    The counter stays below [nPoints], an [Int_t], so [++n] does not
    overflow. *)
Equations? fill_loop (offset scale : Double_t) (nPoints n : Z) (fr : frame)
  : frame by wf (Z.to_nat (nPoints - n)) lt :=
  fill_loop offset scale nPoints n fr with Z_lt_dec n nPoints => {
    | left _ := fill_loop offset scale nPoints (n + 1) (loop_body offset scale fr);
    | right _ := fr }.
Proof. lia. Qed.

Definition genTree (nPoints : Z) (offset scale : Double_t) (seed : Z) : TTree :=
  let fr := {| rng := TRandom3_new seed; x := lit 0; y := lit 0; eventID := 0;
               data := TTree_new |} in
  let fr := set_data fr (Branch "x" addr_x "x/D" (data fr)) in
  let fr := set_data fr (Branch "y" addr_y "y/D" (data fr)) in
  let fr := set_data fr (Branch "eventID" addr_eventID "eventID/I" (data fr)) in
  let fr := fill_loop offset scale nPoints 0 fr in
  ResetBranchAddresses (data fr).

(** The stored value of the Int_t leaf [name] of an entry. *)
Definition leaf_Int (name : string) (e : entry) : option Z :=
  match find (fun p => String.eqb (fst p) name) e with
  | Some (_, LeafI v) => Some v
  | _ => None
  end.

(** The branches of the tree while the loop runs. *)
Definition attached : list branch :=
  [ mkBranch "x" (Some addr_x) "x/D";
    mkBranch "y" (Some addr_y) "y/D";
    mkBranch "eventID" (Some addr_eventID) "eventID/I" ].

Definition row_names : list string := ["x"; "y"; "eventID"].

(** An identifier counter as it is stored: wrapped to [UInt_t], read as
    [Int_t]. *)
Definition stored_id (u : Z) : option Z := Some (as_Int_t (wrap_UInt_t u)).

End WithToolkit.
End Tree.

(* ===================================================================== *)
(** * Programs as traces of framework calls                              *)
(* ===================================================================== *)

Module Trace.

(** Objects created by a program are named by handles, numbered in the
    order of their creation. *)
Definition handle : Type := nat.

Section Monad.
Variable call : Type.

Record state : Type := mkState { next : handle; log : list call }.

Definition M (A : Type) : Type := state -> A * state.

Definition ret {A : Type} (a : A) : M A := fun s => (a, s).

Definition bind {A B : Type} (m : M A) (k : A -> M B) : M B :=
  fun s => let '(a, s') := m s in k a s'.

(** A call into the framework, appended to the log. *)
Definition emit (c : call) : M unit :=
  fun s => (tt, {| next := next s; log := log s ++ [c] |}).

(** A new object. *)
Definition fresh : M handle :=
  fun s => (next s, {| next := S (next s); log := log s |}).

Definition run {A : Type} (m : M A) : A * list call :=
  let '(a, s) := m {| next := O; log := [] |} in (a, log s).

Definition trace {A : Type} (m : M A) : list call := snd (run m).

End Monad.

Arguments ret {call A} a.
Arguments bind {call A B} m k.
Arguments emit {call} c.
Arguments fresh {call}.
Arguments run {call A} m.
Arguments trace {call A} m.

(** The positions, in program order, of the calls that satisfy [p]. *)
Fixpoint positions_from {call : Type} (p : call -> bool) (i : nat) (l : list call)
  : list nat :=
  match l with
  | [] => []
  | c :: l' => (if p c then [i] else []) ++ positions_from p (S i) l'
  end.

Definition positions {call : Type} (p : call -> bool) (l : list call) : list nat :=
  positions_from p O l.

(** Calls satisfying [p] and calls satisfying [q] both happen, and every
    one of the former comes strictly before every one of the latter. *)
Definition precedes {call : Type} (p q : call -> bool) (l : list call) : Prop :=
  positions p l <> [] /\ positions q l <> [] /\
  forall i j, In i (positions p l) -> In j (positions q l) -> (i < j)%nat.

Definition precedesb {call : Type} (p q : call -> bool) (l : list call) : bool :=
  negb (Nat.eqb (List.length (positions p l)) 0) &&
  negb (Nat.eqb (List.length (positions q l)) 0) &&
  forallb (fun i => forallb (fun j => Nat.ltb i j) (positions q l)) (positions p l).

End Trace.

Declare Scope trace_scope.
Delimit Scope trace_scope with trace.
Notation "x <- m ;; k" := (Trace.bind m (fun x => k))
  (at level 61, m at next level, right associativity) : trace_scope.
Notation "m ;; k" := (Trace.bind m (fun _ => k))
  (at level 61, right associativity) : trace_scope.

(* ===================================================================== *)
(** * tutorials/tmva/TMVACrossEvaluation.C                               *)
(* ===================================================================== *)

Module CrossEvaluation.
Import Trace Tree.

(** ** The option string built with [Form] *)

Inductive arg : Type := ArgS (s : string) | ArgI (i : Z).

Definition decimal (i : Z) : string :=
  DecimalString.NilZero.string_of_int (Z.to_int i).

(** A string as C reads it: the characters before the first NUL. *)
Fixpoint c_str (s : string) : string :=
  match s with
  | EmptyString => EmptyString
  | String c rest => if Ascii.eqb c zero then EmptyString else String c (c_str rest)
  end.

Definition is_c_str (s : string) : Prop := c_str s = s.

(** The [int] that [%i] reads where a 32-bit value was passed: a [UInt_t]
    from 2^31 on is read as a negative number. *)
Definition as_int (i : Z) : Z := MachineInt.as_Int_t (MachineInt.wrap_UInt_t i).

(** [Form(fmt, args...)] for the conversions [%s], [%i] and [%%].  The
    format ends at its first NUL; string arguments are copied as C strings
    and are not read as formats; other conversions, which the tutorial does
    not use, are left as they are. *)
Fixpoint Form (fmt : string) (args : list arg) : string :=
  match fmt with
  | EmptyString => EmptyString
  | String "%" (String c rest) =>
      match c, args with
      | "%"%char, _ => String "%" (Form rest args)
      | "s"%char, ArgS s :: args' => c_str s ++ Form rest args'
      | "i"%char, ArgI i :: args' => decimal (as_int i) ++ Form rest args'
      | _, _ => String "%" (String c (Form rest args))
      end
  | String c rest =>
      if Ascii.eqb c zero then EmptyString else String c (Form rest args)
  end.

Definition numFolds : Z := 2.
Definition analysisType : string := "Classification".
Definition splitExpr : string := "int(fabs([eventID]))%int([NumFolds])".

Definition cvOptions : string :=
  Form ("!V"
        ++ ":!Silent"
        ++ ":ModelPersistence"
        ++ ":AnalysisType=%s"
        ++ ":NumFolds=%i"
        ++ ":SplitExpr=%s")
       [ArgS analysisType; ArgI numFolds; ArgS splitExpr].

Section WithToolkit.
Context {T : Toolkit}.

Inductive method_type : Type := kBDT.

Inductive item : Type :=
| Text (s : string)
| ROCAverage (result : handle)
| ROCStandardDeviation (result : handle)
| GetName (file : handle)
| endl.

Inductive call : Type :=
| Tools_Instance
| TFile_Open (file : handle) (name mode : string)
| DataLoader_new (dl : handle) (name : string)
| AddVariable (dl : handle) (name : string) (type : ascii)
| AddSpectator (dl : handle) (name : string) (type : ascii)
| AddSignalTree (dl : handle) (tree : TTree) (weight : Double_t)
| AddBackgroundTree (dl : handle) (tree : TTree) (weight : Double_t)
| PrepareTrainingAndTestTree (dl : handle) (sigcut bkgcut options : string)
| CrossValidation_new (ce : handle) (jobname : string) (dl outputFile : handle)
                      (options : string)
| BookMethod (ce : handle) (method : method_type) (title options : string)
| Evaluate (ce : handle)
| GetResults (ce : handle) (index : Z) (result : handle)
| cout (items : list item)
| TFile_Close (file : handle)
| TMVAGui (fName : string).

Local Open Scope trace_scope.

(** [batch] is the answer of [gROOT->IsBatch()]. *)
Definition TMVACrossEvaluation (batch : bool) : M call Z :=
  emit Tools_Instance ;;
  let sigTree := genTree 1000 (lit 1.0) (lit 1.0) 100 in
  let bkgTree := genTree 1000 (lit (-1.0)) (lit 1.0) 101 in
  let outfileName := "TMVA.root" in
  outputFile <- fresh ;;
  emit (TFile_Open outputFile outfileName "RECREATE") ;;
  dataloader <- fresh ;;
  emit (DataLoader_new dataloader "dataset") ;;
  emit (AddVariable dataloader "x" "F") ;;
  emit (AddVariable dataloader "y" "F") ;;
  emit (AddSpectator dataloader "eventID" "I") ;;
  emit (AddSignalTree dataloader sigTree (lit 1.0)) ;;
  emit (AddBackgroundTree dataloader bkgTree (lit 1.0)) ;;
  emit (PrepareTrainingAndTestTree dataloader "" ""
          ("nTest_Signal=1"
           ++ ":nTest_Background=1"
           ++ ":SplitMode=Random"
           ++ ":NormMode=NumEvents"
           ++ ":!V")) ;;
  ce <- fresh ;;
  emit (CrossValidation_new ce "TMVACrossEvaluation" dataloader outputFile cvOptions) ;;
  emit (BookMethod ce kBDT "BDTG"
          ("!H:!V:NTrees=100:MinNodeSize=2.5%:BoostType=Grad:"
           ++ "Shrinkage=0.10:nCuts=20:MaxDepth=2")) ;;
  emit (Evaluate ce) ;;
  bdtg_result <- fresh ;;
  emit (GetResults ce 0 bdtg_result) ;;
  emit (cout [Text "==> BDTG ROC: avg (std): "; ROCAverage bdtg_result; Text " (";
              ROCStandardDeviation bdtg_result; Text ")"; Text ""; endl]) ;;
  emit (TFile_Close outputFile) ;;
  emit (cout [Text "==> Wrote root file: "; GetName outputFile; endl]) ;;
  emit (cout [Text "==> TMVACrossEvaluation is done!"; endl]) ;;
  (if negb batch then emit (TMVAGui outfileName) else ret tt) ;;
  ret 0.

(** ** Reading a trace *)

Definition declared_variables (l : list call) : list string :=
  flat_map (fun c => match c with AddVariable _ n _ => [n] | _ => [] end) l.

Definition declared_spectators (l : list call) : list string :=
  flat_map (fun c => match c with AddSpectator _ n _ => [n] | _ => [] end) l.

Definition signal_trees (l : list call) : list TTree :=
  flat_map (fun c => match c with AddSignalTree _ t _ => [t] | _ => [] end) l.

Definition background_trees (l : list call) : list TTree :=
  flat_map (fun c => match c with AddBackgroundTree _ t _ => [t] | _ => [] end) l.


(** ** Fold assignment *)

(** The fold of an entry of a tree: the split expression at the entry's
    spectator [eventID]. *)
Definition entry_fold (e : entry) : option Z :=
  match leaf_Int "eventID" e with
  | Some id => SplitExpr.fold_of splitExpr numFolds id
  | None => None
  end.

Definition in_fold (k : Z) (e : entry) : bool :=
  match entry_fold e with Some i => i =? k | None => false end.

Definition fold_size (k : Z) (t : TTree) : nat :=
  List.length (filter (in_fold k) (entries t)).

(** The identifiers stored in a tree, in the order of its entries. *)
Definition eventIDs (t : TTree) : list (option Z) :=
  map (leaf_Int "eventID") (entries t).

Definition id_in_fold (k : Z) (oid : option Z) : bool :=
  match oid with
  | Some id =>
      match SplitExpr.fold_of splitExpr numFolds id with
      | Some i => i =? k
      | None => false
      end
  | None => false
  end.

(** Odd identifiers go to fold 1, even identifiers to fold 0. *)
Definition by_parity (oid : option Z) : Prop :=
  match oid with
  | Some id => SplitExpr.fold_of splitExpr numFolds id = Some (if Z.odd id then 1 else 0)
  | None => False
  end.

(** A tree of 1000 entries of which each fold receives 500, by the
    parity of the identifier. *)
Definition halved (t : TTree) : Prop :=
  GetEntries t = 1000 /\
  fold_size 0 t = 500%nat /\
  fold_size 1 t = 500%nat /\
  Forall by_parity (eventIDs t).

End WithToolkit.
End CrossEvaluation.

(* ===================================================================== *)
(** * tutorials/v7/simple.cxx                                            *)
(* ===================================================================== *)

Module Simple.
Import Trace.

(** Floating-point literals of the program text, as rationals. *)
Inductive TAxisConfig : Type :=
| Equidistant (nbins : Z) (lo hi : Q)
| Irregular (borders : list Q).

(** The body of the fitted function, over the coordinates [x[i]] and the
    parameters [par[i]]. *)
Inductive fexpr : Type :=
| X (i : nat)
| P (i : nat)
| Add (a b : fexpr)
| Sub (a b : fexpr)
| Mul (a b : fexpr).

Fixpoint parameters (e : fexpr) : list nat :=
  match e with
  | X _ => []
  | P i => [i]
  | Add a b | Sub a b | Mul a b => parameters a ++ parameters b
  end.

Inductive call : Type :=
| TH2D_new (hist : handle) (xaxis yaxis : TAxisConfig)
| Fill (hist : handle) (coord : list Q)
| TFunction_new (func : handle) (dim : nat) (body : fexpr)
| FitTo (fitResult hist func : handle) (paramInit : list Q)
| TFile_Recreate (file : handle) (name : string)
| TFile_Write (file : handle) (name : string) (hist : handle).

Local Open Scope trace_scope.
Local Open Scope Q_scope.

Definition simple : M call unit :=
  let xAxis := Equidistant 100 0.0 1.0 in
  let yAxis := Irregular [0.0; 1.0; 2.0; 3.0; 10.0] in
  histFromVars <- fresh ;;
  emit (TH2D_new histFromVars xAxis yAxis) ;;
  hist <- fresh ;;
  emit (TH2D_new hist (Equidistant 100 0.0 1.0) (Irregular [0.0; 1.0; 2.0; 3.0; 10.0])) ;;
  emit (Fill hist [0.01; 1.02]) ;;
  func <- fresh ;;
  emit (TFunction_new func 2
          (Add (Mul (Mul (P 0) (X 0)) (X 0)) (Mul (Sub (P 1) (X 1)) (X 1)))) ;;
  fitResult <- fresh ;;
  emit (FitTo fitResult hist func [0.0; 1.0]) ;;
  file <- fresh ;;
  emit (TFile_Recreate file "hist.root") ;;
  emit (TFile_Write file "TheHist" hist).

(** ** Reading a trace *)

Definition creates_hist (h : handle) (c : call) : bool :=
  match c with TH2D_new h' _ _ => Nat.eqb h h' | _ => false end.
Definition fills (h : handle) (c : call) : bool :=
  match c with Fill h' _ => Nat.eqb h h' | _ => false end.
Definition fits (h : handle) (c : call) : bool :=
  match c with FitTo _ h' _ _ => Nat.eqb h h' | _ => false end.
Definition writes (h : handle) (c : call) : bool :=
  match c with TFile_Write _ _ h' => Nat.eqb h h' | _ => false end.

(** The coordinates of the fills of the histogram [h]. *)
Definition fills_of (h : handle) (l : list call) : list (list Q) :=
  flat_map (fun c => match c with
                     | Fill h' xs => if Nat.eqb h h' then [xs] else []
                     | _ => []
                     end) l.

(** The functions the histogram [h] is fitted with, each with its body and
    the initial values of its parameters. *)
Definition body_of (func : handle) (l : list call) : option fexpr :=
  match find (fun c => match c with
                       | TFunction_new f _ _ => Nat.eqb f func
                       | _ => false
                       end) l with
  | Some (TFunction_new _ _ b) => Some b
  | _ => None
  end.

Definition fits_of (h : handle) (l : list call) : list (option fexpr * list Q) :=
  flat_map (fun c => match c with
                     | FitTo _ h' func init =>
                         if Nat.eqb h h' then [(body_of func l, init)] else []
                     | _ => []
                     end) l.

(** The histogram the program writes. *)
Definition written (l : list call) : list handle :=
  flat_map (fun c => match c with TFile_Write _ _ h => [h] | _ => [] end) l.

End Simple.

(* ===================================================================== *)
(** * What [genTree] computes, without the loop                          *)
(* ===================================================================== *)

Module TreeSpec.
Import MachineInt Tree.

Section WithToolkit.
Context {T : Toolkit}.

(** The frame of [genTree] when the loop is entered: the three branches are
    attached, nothing is filled. *)
Definition entry_frame (seed : Z) : frame :=
  {| rng := TRandom3_new seed; x := lit 0; y := lit 0; eventID := 0;
     data := {| branches := attached; entries := [] |} |}.

(** The branches once their addresses are reset. *)
Definition detached : list branch :=
  [ mkBranch "x" None "x/D";
    mkBranch "y" None "y/D";
    mkBranch "eventID" None "eventID/I" ].

(** The samples of [m] rounds: each round draws twice from the generator,
    first for x and then for y. *)
Fixpoint draws (m : nat) (r : TRandom3) (offset scale : Double_t)
  : list (Double_t * Double_t) :=
  match m with
  | O => []
  | S m' =>
      let '(vx, r1) := Gaus r offset scale in
      let '(vy, r2) := Gaus r1 offset scale in
      (vx, vy) :: draws m' r2 offset scale
  end.

(** The entries filled for a list of samples, the counter being at [id]
    before the first of them. *)
Fixpoint rows (id : Z) (ds : list (Double_t * Double_t)) : list entry :=
  match ds with
  | [] => []
  | (vx, vy) :: ds' =>
      let id' := wrap_UInt_t (id + 1) in
      [("x", LeafD vx); ("y", LeafD vy); ("eventID", LeafI (as_Int_t id'))]
        :: rows id' ds'
  end.

End WithToolkit.
End TreeSpec.

(* ===================================================================== *)
(** * The entry point and further readings of the traces                 *)
(* ===================================================================== *)

Module CrossEvaluationMain.
Import Trace Tree CrossEvaluation.

Section WithToolkit.
Context {T : Toolkit}.

Local Open Scope trace_scope.

(** [int main(int argc, char **argv) { TMVACrossEvaluation(); }]: the
    result of the call is dropped, and [main] returns 0 at its end. *)
Definition main (batch : bool) : M call Z :=
  TMVACrossEvaluation batch ;;
  ret 0.






End WithToolkit.
End CrossEvaluationMain.

Module SimpleReading.
Import Trace Simple.

(** The histograms a program creates, with their axes. *)
Definition histograms (l : list call) : list (handle * TAxisConfig * TAxisConfig) :=
  flat_map (fun c => match c with TH2D_new h xa ya => [(h, xa, ya)] | _ => [] end) l.

(** Calls that fill, fit or write the histogram [h]. *)
Definition touches (h : handle) (c : call) : bool :=
  fills h c || fits h c || writes h c.

(** Calls that fill, fit or write a histogram, whichever it is. *)
Definition touches_any (c : call) : bool :=
  match c with
  | Fill _ _ | FitTo _ _ _ _ | TFile_Write _ _ _ => true
  | _ => false
  end.

End SimpleReading.

(* ===================================================================== *)
(** * Properties of split expressions                                    *)
(* ===================================================================== *)

Module SplitExprFacts.
Import MachineInt SplitExpr CrossEvaluation.

Lemma parse_splitExpr :
  parse splitExpr = Some (Mod (Int (Fabs (Par "eventID"))) (Int (Par "NumFolds"))).
Proof. reflexivity. Qed.

(** The value of a formula depends on its parameters only. *)
Lemma eval_agree (f : formula) (rho1 rho2 : env) :
  (forall x, In x (params f) -> rho1 x = rho2 x) ->
  eval rho1 f = eval rho2 f.
Proof.
  induction f as [x | a IHa | a IHa | a IHa b IHb]; simpl; intros Hagree.
  - apply Hagree. now left.
  - now rewrite IHa.
  - now rewrite IHa.
  - rewrite IHa, IHb; try reflexivity;
      intros x Hx; apply Hagree, in_or_app; auto.
Qed.

Lemma to_int_in_range (v : Z) : in_Int_t v -> to_int v = Some v.
Proof.
  unfold in_Int_t, to_int, in_Int_tb. intros [Hlo Hhi].
  apply Z.leb_le in Hlo, Hhi. now rewrite Hlo, Hhi.
Qed.

Lemma to_int_Some (v i : Z) : to_int v = Some i -> i = v /\ in_Int_t v.
Proof.
  unfold to_int, in_Int_tb, in_Int_t.
  destruct (Int_t_min <=? v) eqn:Hlo; destruct (v <=? Int_t_max) eqn:Hhi;
    simpl; intros H; inversion H; subst.
  apply Z.leb_le in Hlo, Hhi. auto.
Qed.

(** Converting a value twice is converting it once. *)
Lemma to_int_idem (v : Z) : SplitExpr.bind (to_int v) to_int = to_int v.
Proof.
  destruct (to_int v) as [i |] eqn:H; simpl; [| reflexivity].
  apply to_int_Some in H as [-> Hr]. now apply to_int_in_range.
Qed.

(** The split expression of the tutorial, evaluated. *)
Lemma fold_of_splitExpr (e k : Z) :
  fold_of splitExpr k e =
  SplitExpr.bind (to_int (Z.abs e)) (fun a =>
  SplitExpr.bind (to_int k) (fun b => remainder a b)).
Proof.
  unfold fold_of, fold_in. rewrite parse_splitExpr. simpl.
  destruct (to_int (Z.abs e)) as [a |] eqn:Ha; simpl; [| reflexivity].
  destruct (to_int k) as [b |] eqn:Hb; simpl; [| reflexivity].
  apply to_int_Some in Ha as [-> Ha]. apply to_int_Some in Hb as [-> Hb].
  now rewrite !to_int_in_range.
Qed.

(** In range, the fold is the identifier's absolute value modulo the
    number of folds. *)
Lemma fold_of_in_range (e k : Z) :
  Z.abs e <= Int_t_max -> 1 <= k <= Int_t_max ->
  fold_of splitExpr k e = Some (Z.abs e mod k).
Proof.
  intros He Hk. rewrite fold_of_splitExpr.
  assert (Hmin : Int_t_min < 0) by reflexivity.
  rewrite (to_int_in_range (Z.abs e)) by (unfold in_Int_t; lia). simpl.
  rewrite (to_int_in_range k) by (unfold in_Int_t; lia). simpl.
  unfold remainder.
  destruct (k =? 0) eqn:Hk0; [apply Z.eqb_eq in Hk0; lia |].
  destruct (k =? -1) eqn:Hk1; [apply Z.eqb_eq in Hk1; lia |].
  rewrite andb_false_r. f_equal. apply Z.rem_mod_nonneg; lia.
Qed.

End SplitExprFacts.

(* ===================================================================== *)
(** * Fold assignment by the split expression                            *)
(* ===================================================================== *)

Module FoldAssignment.
Import MachineInt SplitExpr CrossEvaluation SplitExprFacts.

(** C1. Fold assignment is deterministic, and the fold depends on the event
    identifier and the number of folds only: under any two settings of the
    parameters that give [eventID] the same value and [NumFolds] the same
    value, whatever else they contain, the split expression
    "int(fabs([eventID]))%int([NumFolds])" has the same result. *)
Theorem fold_depends_on_eventID_and_NumFolds_only (rho1 rho2 : env) :
  rho1 "eventID" = rho2 "eventID" ->
  rho1 "NumFolds" = rho2 "NumFolds" ->
  fold_in splitExpr rho1 = fold_in splitExpr rho2.
Proof.
  intros Hid Hk. unfold fold_in. rewrite parse_splitExpr.
  cbn [SplitExpr.bind]. apply eval_agree.
  cbn [params app]. intros x [<- | [<- | []]]; assumption.
Qed.

Lemma fold_depends_on_eventID_and_NumFolds_only_witness :
  rho_a "x" <> rho_b "x" /\
  fold_in splitExpr rho_a = fold_in splitExpr rho_b.
Proof.
  split.
  - discriminate.
  - apply (fold_depends_on_eventID_and_NumFolds_only rho_a rho_b); reflexivity.
Defined.

(** C2, as stated, fails: the identifier -2147483648 is a value of the
    spectator's type, its absolute value does not fit the [int] that
    [int(.)] converts to, and the expression has no fold for it; likewise
    2147483648 folds do not fit [int([NumFolds])]. *)
Lemma fold_index_every_integer_counterexample :
  (in_Int_t (-2147483648) /\ 1 <= 3 /\
   ~ exists i, fold_of splitExpr 3 (-2147483648) = Some i /\ 0 <= i < 3) /\
  (in_UInt_t 2147483648 /\ 1 <= 2147483648 /\
   ~ exists i, fold_of splitExpr 2147483648 0 = Some i /\ 0 <= i < 2147483648).
Proof.
  split; (split; [| split]).
  - unfold in_Int_t, Int_t_min, Int_t_max. lia.
  - lia.
  - intros [i [H _]]. vm_compute in H. discriminate.
  - unfold in_UInt_t, UInt_t_modulus. lia.
  - lia.
  - intros [i [H _]]. vm_compute in H. discriminate.
Qed.

(** C2, amended. For every event identifier [e] whose absolute value fits
    an [int] and every number of folds [k] with 1 <= k <= 2147483647, the
    split expression evaluates to a fold index in the range 0 .. k-1. *)
Theorem fold_index_in_range (e k : Z) :
  Z.abs e <= Int_t_max ->
  1 <= k <= Int_t_max ->
  exists i, fold_of splitExpr k e = Some i /\ 0 <= i < k.
Proof.
  intros He Hk. exists (Z.abs e mod k). split.
  - now apply fold_of_in_range.
  - apply Z.mod_pos_bound. lia.
Qed.

Lemma fold_index_in_range_witness :
  exists i, fold_of splitExpr 3 (-2147483647) = Some i /\ 0 <= i < 3.
Proof.
  apply (fold_index_in_range (-2147483647) 3).
  - vm_compute. discriminate.
  - vm_compute. split; discriminate.
Defined.

(** C3, as stated, fails: for the identifier -2147483648 the arithmetic of
    the specification gives fold 2 of 3, while the expression the program
    configures converts 2147483648 to [int] and has no such result; likewise
    for 2147483648 folds the arithmetic gives fold 0 and the conversion
    [int([NumFolds])] is not defined. *)
Lemma spec_arithmetic_every_integer_counterexample :
  (in_Int_t (-2147483648) /\ 0 < 3 /\
   spec_fold (-2147483648) 3 = 2 /\
   fold_of splitExpr 3 (-2147483648) <> Some (spec_fold (-2147483648) 3)) /\
  (in_UInt_t 2147483648 /\ 0 < 2147483648 /\
   spec_fold 0 2147483648 = 0 /\
   fold_of splitExpr 2147483648 0 <> Some (spec_fold 0 2147483648)).
Proof.
  split; (split; [| split; [| split]]).
  - unfold in_Int_t, Int_t_min, Int_t_max. lia.
  - lia.
  - reflexivity.
  - vm_compute. discriminate.
  - unfold in_UInt_t, UInt_t_modulus. lia.
  - lia.
  - reflexivity.
  - vm_compute. discriminate.
Qed.

(** C3, amended. For every event identifier [e] whose absolute value fits
    an [int] and every number of folds [k] with 1 <= k <= 2147483647, the
    expression the program configures,
    "int(fabs([eventID]))%int([NumFolds])", has a result, and it is the fold
    index the arithmetic of the specification, int(fabs(eventID)) % numFolds,
    computes. *)
Theorem splitExpr_computes_spec_fold (e k : Z) :
  Z.abs e <= Int_t_max ->
  0 < k <= Int_t_max ->
  fold_of splitExpr k e = Some (spec_fold e k).
Proof.
  intros He Hk. unfold spec_fold. apply fold_of_in_range; lia.
Qed.

Lemma splitExpr_computes_spec_fold_witness :
  fold_of splitExpr 3 (-2147483647) = Some (spec_fold (-2147483647) 3) /\
  spec_fold (-2147483647) 3 = 1.
Proof.
  split.
  - apply (splitExpr_computes_spec_fold (-2147483647) 3).
    + vm_compute. discriminate.
    + vm_compute. split; [reflexivity | discriminate].
  - reflexivity.
Defined.

End FoldAssignment.

(* ===================================================================== *)
(** * Properties of [genTree]                                            *)
(* ===================================================================== *)

Module TreeFacts.
Import MachineInt Tree.

Section WithToolkit.
Context {T : Toolkit}.

(** The loop runs its body once for each value of the counter from [n] up
    to [nPoints - 1], and then stops. *)
Lemma fill_loop_iter (offset scale : Double_t) (nPoints n : Z) (fr : frame) :
  fill_loop offset scale nPoints n fr =
  Nat.iter (Z.to_nat (nPoints - n)) (loop_body offset scale) fr.
Proof.
  funelim (fill_loop offset scale nPoints n fr).
  - match goal with IH : fill_loop _ _ _ _ _ = Nat.iter _ _ _ |- _ => rewrite IH end.
    replace (Z.to_nat (nPoints - n)) with (S (Z.to_nat (nPoints - (n + 1)))) by lia.
    now rewrite Nat.iter_succ_r.
  - now replace (Z.to_nat (nPoints - n)) with O by lia.
Qed.

Lemma loop_body_eventID (offset scale : Double_t) (fr : frame) :
  eventID (loop_body offset scale fr) = wrap_UInt_t (eventID fr + 1).
Proof.
  unfold loop_body.
  destruct (Gaus (rng fr) offset scale) as [vx r1].
  destruct (Gaus r1 offset scale) as [vy r2]. reflexivity.
Qed.

Lemma loop_body_data (offset scale : Double_t) (fr : frame) :
  branches (data fr) = attached ->
  branches (data (loop_body offset scale fr)) = attached /\
  exists row,
    entries (data (loop_body offset scale fr)) = entries (data fr) ++ [row] /\
    map fst row = row_names /\
    leaf_Int "eventID" row = stored_id (eventID fr + 1).
Proof.
  intros Hb. unfold loop_body.
  destruct (Gaus (rng fr) offset scale) as [vx r1].
  destruct (Gaus r1 offset scale) as [vy r2].
  cbn [set_data data Fill branches entries]. rewrite Hb. split; [reflexivity |].
  eexists. split; [reflexivity |]. split; reflexivity.
Qed.

Lemma wrap_succ (u : Z) (m : nat) :
  wrap_UInt_t (wrap_UInt_t (u + Z.of_nat m) + 1) = wrap_UInt_t (u + Z.of_nat (S m)).
Proof.
  unfold wrap_UInt_t. rewrite Zplus_mod_idemp_l. f_equal. lia.
Qed.

(** What [m] rounds of the loop body leave behind. *)
Lemma iter_loop_body (offset scale : Double_t) (fr : frame) (m : nat) :
  branches (data fr) = attached ->
  in_UInt_t (eventID fr) ->
  let fr' := Nat.iter m (loop_body offset scale) fr in
  branches (data fr') = attached /\
  eventID fr' = wrap_UInt_t (eventID fr + Z.of_nat m) /\
  exists rows,
    entries (data fr') = entries (data fr) ++ rows /\
    List.length rows = m /\
    Forall (fun row => map fst row = row_names) rows /\
    map (leaf_Int "eventID") rows =
    map (fun i => stored_id (eventID fr + Z.of_nat i)) (seq 1 m).
Proof.
  intros Hb Hid. induction m as [| m IH]; cbn zeta in *.
  - split; [assumption |]. split.
    + unfold wrap_UInt_t. rewrite Z.add_0_r, Z.mod_small; [reflexivity | exact Hid].
    + exists []. rewrite app_nil_r. repeat split. constructor.
  - destruct IH as (Hb' & Hid' & rows & Hrows & Hlen & Hnames & Hids).
    rewrite Nat.iter_succ.
    set (fr_m := Nat.iter m (loop_body offset scale) fr) in *.
    destruct (loop_body_data offset scale fr_m Hb') as (Hb'' & row & Hrow & Hn & Hi).
    split; [exact Hb'' |]. split.
    + rewrite loop_body_eventID, Hid'. apply wrap_succ.
    + exists (rows ++ [row]). repeat split.
      * rewrite Hrow, Hrows. now rewrite app_assoc.
      * rewrite length_app, Hlen. simpl. lia.
      * apply Forall_app. split; [assumption | now constructor].
      * rewrite seq_S, !map_app, Hids. cbn [map]. f_equal. f_equal.
        rewrite Hi, Hid'. unfold stored_id. now rewrite wrap_succ.
Qed.

(** The entries and branches of a generated tree. *)
Lemma genTree_rows (nPoints : Z) (offset scale : Double_t) (seed : Z) :
  let t := genTree nPoints offset scale seed in
  map bname (branches t) = row_names /\
  List.length (entries t) = Z.to_nat nPoints /\
  Forall (fun row => map fst row = row_names) (entries t) /\
  map (leaf_Int "eventID") (entries t) =
  map (fun i => stored_id (Z.of_nat i)) (seq 1 (Z.to_nat nPoints)).
Proof.
  cbn zeta. unfold genTree. rewrite fill_loop_iter, Z.sub_0_r.
  match goal with
  | |- context [Nat.iter _ _ ?fr0] =>
      destruct (iter_loop_body offset scale fr0 (Z.to_nat nPoints))
        as (Hb & _ & rows & Hrows & Hlen & Hnames & Hids);
      [reflexivity | (unfold in_UInt_t, UInt_t_modulus; cbn; lia) |]
  end.
  cbn [ResetBranchAddresses branches entries].
  rewrite Hb, Hrows. cbn [set_data data TTree_new Branch entries app].
  repeat split; assumption || reflexivity.
Qed.

(** Up to [Int_t_max] entries, the counter does not wrap and reads back as
    itself. *)
Lemma stored_id_small (i : Z) : 0 <= i <= Int_t_max -> stored_id i = Some i.
Proof.
  intros Hi. unfold stored_id, as_Int_t, wrap_UInt_t.
  assert (Hmax : Int_t_max < UInt_t_modulus) by reflexivity.
  rewrite Z.mod_small by lia.
  destruct (i <=? Int_t_max) eqn:Hle; [reflexivity |].
  apply Z.leb_gt in Hle. lia.
Qed.

End WithToolkit.
End TreeFacts.

(* ===================================================================== *)
(** * The toy data generator                                             *)
(* ===================================================================== *)

Module GenTree.
Import MachineInt Tree TreeFacts CrossEvaluation.

Section WithToolkit.
Context {T : Toolkit}.

(** C5. For every nPoints >= 0, the tree returned by
    genTree(nPoints, offset, scale, seed) has exactly nPoints entries, and
    every entry has the fields x, y and eventID. *)
Theorem genTree_entries
    (nPoints : Z) (offset scale : Double_t) (seed : Z) :
  0 <= nPoints ->
  GetEntries (genTree nPoints offset scale seed) = nPoints /\
  Forall (fun row => map fst row = ["x"; "y"; "eventID"])
         (entries (genTree nPoints offset scale seed)).
Proof.
  intros Hn.
  destruct (genTree_rows nPoints offset scale seed) as (_ & Hlen & Hnames & _).
  split; [| exact Hnames].
  unfold GetEntries. rewrite Hlen. now apply Z2Nat.id.
Qed.

(** C9. The identifier is incremented before each entry is filled: the
    identifiers stored in a tree of nPoints entries are 1, 2, ..., nPoints,
    in this order, and none of them is 0. *)
Theorem genTree_eventIDs
    (nPoints : Z) (offset scale : Double_t) (seed : Z) :
  in_Int_t nPoints ->
  eventIDs (genTree nPoints offset scale seed) =
    map (fun i => Some (Z.of_nat i)) (seq 1 (Z.to_nat nPoints)) /\
  ~ In (Some 0) (eventIDs (genTree nPoints offset scale seed)).
Proof.
  intros [_ Hmax].
  assert (Hids : eventIDs (genTree nPoints offset scale seed) =
                 map (fun i => Some (Z.of_nat i)) (seq 1 (Z.to_nat nPoints))).
  { unfold eventIDs.
    destruct (genTree_rows nPoints offset scale seed) as (_ & _ & _ & Hids).
    rewrite Hids. apply map_ext_in. intros i Hi. apply in_seq in Hi.
    apply stored_id_small. lia. }
  split; [exact Hids |].
  rewrite Hids. intros Hin. apply in_map_iff in Hin as (i & Hi & Hin).
  apply in_seq in Hin. inversion Hi. lia.
Qed.

End WithToolkit.

Lemma genTree_entries_witness :
  GetEntries (genTree (T := counting_toolkit) 3 1.0%Q 1.0%Q 100) = 3 /\
  Forall (fun row => map fst row = ["x"; "y"; "eventID"])
         (entries (genTree (T := counting_toolkit) 3 1.0%Q 1.0%Q 100)).
Proof.
  apply (genTree_entries (T := counting_toolkit) 3 1.0%Q 1.0%Q 100).
  vm_compute. discriminate.
Defined.

Lemma genTree_eventIDs_witness :
  eventIDs (genTree (T := counting_toolkit) 3 1.0%Q 1.0%Q 100) =
    map (fun i => Some (Z.of_nat i)) (seq 1 (Z.to_nat 3)) /\
  ~ In (Some 0) (eventIDs (genTree (T := counting_toolkit) 3 1.0%Q 1.0%Q 100)).
Proof.
  apply (genTree_eventIDs (T := counting_toolkit) 3 1.0%Q 1.0%Q 100).
  unfold in_Int_t. vm_compute. split; discriminate.
Defined.

(** The generator run on the counting toolkit. *)
Example genTree_2 :
  entries (genTree (T := counting_toolkit) 2 1.0%Q 1.0%Q 100) =
  [ [("x", LeafD 1.0%Q); ("y", LeafD 1.0%Q); ("eventID", LeafI 1)];
    [("x", LeafD 1.0%Q); ("y", LeafD 1.0%Q); ("eventID", LeafI 2)] ].
Proof. vm_compute. reflexivity. Qed.

Example genTree_negative :
  entries (genTree (T := counting_toolkit) (-5) 1.0%Q 1.0%Q 100) = [].
Proof. vm_compute. reflexivity. Qed.

End GenTree.

(* ===================================================================== *)
(** * The configuration of the cross evaluation                          *)
(* ===================================================================== *)

Module TraceFacts.
Import Trace.

Lemma precedesb_sound {call : Type} (p q : call -> bool) (l : list call) :
  precedesb p q l = true -> precedes p q l.
Proof.
  unfold precedesb, precedes. intros H.
  apply andb_prop in H as [H Hall]. apply andb_prop in H as [Hp Hq].
  repeat split.
  - intros E. rewrite E in Hp. discriminate.
  - intros E. rewrite E in Hq. discriminate.
  - intros i j Hi Hj.
    rewrite forallb_forall in Hall. specialize (Hall i Hi).
    rewrite forallb_forall in Hall. now apply Nat.ltb_lt, Hall.
Qed.

Lemma filter_map_length {A B : Type} (f : A -> B) (g : B -> bool) (l : list A) :
  List.length (filter (fun a => g (f a)) l) = List.length (filter g (map f l)).
Proof.
  induction l as [| a l IH]; simpl; [reflexivity |].
  destruct (g (f a)); simpl; now rewrite IH.
Qed.

End TraceFacts.

Module CrossEvaluationFacts.
Import MachineInt SplitExpr Trace Tree TreeFacts CrossEvaluation.
Import SplitExprFacts TraceFacts.

Section WithToolkit.
Context {T : Toolkit}.

Lemma cvOptions_value :
  cvOptions =
  "!V:!Silent:ModelPersistence:AnalysisType=Classification:NumFolds=2:SplitExpr=int(fabs([eventID]))%int([NumFolds])".
Proof. reflexivity. Qed.

(** C4. eventID is a spectator, not a training variable: the variables the
    program declares are exactly x and y, eventID is declared as a
    spectator and not as a variable, and eventID is the only field the
    split expression refers to. *)
Theorem eventID_is_a_spectator (batch : bool) :
  declared_variables (trace (TMVACrossEvaluation batch)) = ["x"; "y"] /\
  declared_spectators (trace (TMVACrossEvaluation batch)) = ["eventID"] /\
  ~ In "eventID" (declared_variables (trace (TMVACrossEvaluation batch))) /\
  option_map fields (parse splitExpr) = Some ["eventID"].
Proof.
  assert (Hv : declared_variables (trace (TMVACrossEvaluation batch)) = ["x"; "y"])
    by (destruct batch; reflexivity).
  repeat split.
  - exact Hv.
  - destruct batch; reflexivity.
  - rewrite Hv. intros [H | [H | []]]; discriminate.
Qed.

(** ** The folds of the generated trees *)

Lemma fold_size_eventIDs (k : Z) (t : TTree) :
  fold_size k t = List.length (filter (id_in_fold k) (eventIDs t)).
Proof.
  unfold fold_size, eventIDs. rewrite <- filter_map_length. f_equal.
  apply filter_ext. intros e. unfold in_fold, entry_fold, id_in_fold.
  now destruct (leaf_Int "eventID" e).
Qed.

Lemma genTree_1000_halved (offset scale : Double_t) (seed : Z) :
  halved (genTree 1000 offset scale seed).
Proof.
  destruct (genTree_rows 1000 offset scale seed) as (_ & Hlen & _ & Hids).
  fold (eventIDs (genTree 1000 offset scale seed)) in Hids.
  unfold halved. rewrite !fold_size_eventIDs, Hids.
  split; [| split; [| split]].
  - unfold GetEntries. now rewrite Hlen.
  - vm_compute. reflexivity.
  - vm_compute. reflexivity.
  - apply Forall_forall. intros oid Hin.
    apply in_map_iff in Hin as (i & <- & Hin). apply in_seq in Hin.
    change (Z.to_nat 1000) with 1000%nat in Hin.
    assert (Hmax : Int_t_max = 2147483647) by reflexivity.
    rewrite stored_id_small by lia. unfold by_parity, numFolds.
    rewrite fold_of_in_range by lia.
    rewrite Z.abs_eq by lia. now rewrite Zmod_odd.
Qed.

(** C10. With numFolds = 2 and the identifiers 1..1000 of each generated
    tree, the split expression puts exactly 500 events of the signal tree
    and exactly 500 events of the background tree into each of the two
    folds: odd identifiers into fold 1, even identifiers into fold 0. *)
Theorem generated_trees_are_halved (batch : bool) :
  numFolds = 2 /\
  exists sigTree bkgTree,
    signal_trees (trace (TMVACrossEvaluation batch)) = [sigTree] /\
    background_trees (trace (TMVACrossEvaluation batch)) = [bkgTree] /\
    halved sigTree /\ halved bkgTree.
Proof.
  split; [reflexivity |].
  exists (genTree 1000 (lit 1.0) (lit 1.0) 100),
         (genTree 1000 (lit (-1.0)) (lit 1.0) 101).
  split; [destruct batch; reflexivity |].
  split; [destruct batch; reflexivity |].
  split; apply genTree_1000_halved.
Qed.

End WithToolkit.
End CrossEvaluationFacts.

(* ===================================================================== *)
(** * The histogram workflow of simple.cxx                               *)
(* ===================================================================== *)

Module SimpleFacts.
Import Trace Simple TraceFacts.

Lemma simple_trace_length : List.length (trace simple) = 7%nat.
Proof. reflexivity. Qed.

(** C6. The program works in the order create, fill, fit, write: the
    histogram it writes is created before it is filled, filled before it is
    fitted, and fitted before it is written to the file; it is filled
    once, at the coordinate (0.01, 1.02), and fitted once, with a function
    of the two parameters par[0] and par[1], started at two values. *)
Theorem simple_create_fill_fit_write :
  exists hist,
    written (trace simple) = [hist] /\
    precedes (creates_hist hist) (fills hist) (trace simple) /\
    precedes (fills hist) (fits hist) (trace simple) /\
    precedes (fits hist) (writes hist) (trace simple) /\
    fills_of hist (trace simple) = [[0.01; 1.02]%Q] /\
    exists body paramInit,
      fits_of hist (trace simple) = [(Some body, paramInit)] /\
      nodup Nat.eq_dec (parameters body) = [0; 1]%nat /\
      List.length paramInit = 2%nat.
Proof.
  exists 1%nat. split; [reflexivity |].
  split; [apply precedesb_sound; reflexivity |].
  split; [apply precedesb_sound; reflexivity |].
  split; [apply precedesb_sound; reflexivity |].
  split; [reflexivity |].
  eexists. eexists. split; [reflexivity |]. split; reflexivity.
Qed.

End SimpleFacts.

(* ===================================================================== *)
(** * More on [genTree]                                                  *)
(* ===================================================================== *)

Module GenTreeMore.
Import MachineInt Tree TreeFacts TreeSpec CrossEvaluation.

Section WithToolkit.
Context {T : Toolkit}.

Lemma genTree_iter (nPoints : Z) (offset scale : Double_t) (seed : Z) :
  genTree nPoints offset scale seed =
  ResetBranchAddresses
    (data (Nat.iter (Z.to_nat nPoints) (loop_body offset scale) (entry_frame seed))).
Proof.
  unfold genTree. rewrite fill_loop_iter, Z.sub_0_r. reflexivity.
Qed.

Lemma loop_body_step (offset scale : Double_t) (fr : frame)
    (vx vy : Double_t) (r1 r2 : TRandom3) :
  branches (data fr) = attached ->
  Gaus (rng fr) offset scale = (vx, r1) ->
  Gaus r1 offset scale = (vy, r2) ->
  loop_body offset scale fr =
  {| rng := r2; x := vx; y := vy;
     eventID := wrap_UInt_t (eventID fr + 1);
     data := {| branches := attached;
                entries := entries (data fr) ++ rows (eventID fr) [(vx, vy)] |} |}.
Proof.
  intros Hb E1 E2. unfold loop_body. rewrite E1, E2.
  unfold set_data, Fill. cbn [data branches entries rng x y eventID].
  rewrite Hb. reflexivity.
Qed.

(** [m] rounds of the loop body append the rows of the [m] next pairs of
    samples. *)
Lemma iter_rows (offset scale : Double_t) (m : nat) :
  forall fr : frame,
    branches (data fr) = attached ->
    data (Nat.iter m (loop_body offset scale) fr) =
    {| branches := attached;
       entries := entries (data fr) ++
                  rows (eventID fr) (draws m (rng fr) offset scale) |}.
Proof.
  induction m as [| m IH]; intros fr Hb.
  - cbn [Nat.iter nat_rect draws rows]. rewrite app_nil_r.
    destruct (data fr) as [bs es]. cbn in Hb |- *. now rewrite Hb.
  - rewrite Nat.iter_succ_r. cbn [draws].
    destruct (Gaus (rng fr) offset scale) as [vx r1] eqn:E1.
    destruct (Gaus r1 offset scale) as [vy r2] eqn:E2.
    rewrite (loop_body_step offset scale fr vx vy r1 r2 Hb E1 E2).
    rewrite IH by reflexivity.
    cbn [data entries rng eventID rows]. now rewrite <- app_assoc.
Qed.

Lemma genTree_as_rows (nPoints : Z) (offset scale : Double_t) (seed : Z) :
  genTree nPoints offset scale seed =
  {| branches := detached;
     entries := rows 0 (draws (Z.to_nat nPoints) (TRandom3_new seed) offset scale) |}.
Proof.
  rewrite genTree_iter, iter_rows by reflexivity. reflexivity.
Qed.

(** X1. The result of [genTree] without the loop: the branches are x, y and
    eventID, detached from the variables of the function, and the entries
    are the rows of the samples drawn, two per entry, from the generator
    seeded with [seed], numbered from 1 by the wrapping counter. *)
Theorem genTree_closed_form (nPoints : Z) (offset scale : Double_t) (seed : Z) :
  genTree nPoints offset scale seed =
  {| branches := detached;
     entries := rows 0 (draws (Z.to_nat nPoints) (TRandom3_new seed) offset scale) |}.
Proof.
  apply genTree_as_rows.
Qed.

(** X2. Without points to generate, also for a negative [nPoints], the tree has
    its three branches and no entry. *)
Theorem genTree_no_points (nPoints : Z) (offset scale : Double_t) (seed : Z) :
  nPoints <= 0 ->
  genTree nPoints offset scale seed = {| branches := detached; entries := [] |}.
Proof.
  intros Hn. rewrite genTree_as_rows.
  now replace (Z.to_nat nPoints) with O by lia.
Qed.

(** X3. The identifiers do not depend on the data: the same number of points
    gives the same identifiers, whatever the offset, the scale and the
    seed. *)
Theorem eventIDs_independent_of_data
    (nPoints : Z) (offset scale offset' scale' : Double_t) (seed seed' : Z) :
  eventIDs (genTree nPoints offset scale seed) =
  eventIDs (genTree nPoints offset' scale' seed').
Proof.
  unfold eventIDs.
  destruct (genTree_rows nPoints offset scale seed) as (_ & _ & _ & ->).
  destruct (genTree_rows nPoints offset' scale' seed') as (_ & _ & _ & ->).
  reflexivity.
Qed.

Lemma firstn_rows (offset scale : Double_t) (m c : nat) :
  forall (id : Z) (r : TRandom3),
    firstn m (rows id (draws (m + c) r offset scale)) =
    rows id (draws m r offset scale).
Proof.
  induction m as [| m IH]; intros id r; [reflexivity |].
  cbn [Nat.add draws].
  destruct (Gaus r offset scale) as [vx r1].
  destruct (Gaus r1 offset scale) as [vy r2].
  cbn [rows firstn]. now rewrite IH.
Qed.

(** X4. Asking for more points extends the data: with the same offset, scale
    and seed, the seed being other than 0 (which would seed each call
    anew), the tree of [a] points is the beginning of the tree of [b]
    points when a <= b. *)
Theorem genTree_prefix (a b : Z) (offset scale : Double_t) (seed : Z) :
  seed <> 0 ->
  a <= b ->
  firstn (Z.to_nat a) (entries (genTree b offset scale seed)) =
  entries (genTree a offset scale seed).
Proof.
  intros _ Hab. rewrite !genTree_as_rows. cbn [entries].
  replace (Z.to_nat b) with (Z.to_nat a + (Z.to_nat b - Z.to_nat a))%nat by lia.
  apply firstn_rows.
Qed.

End WithToolkit.

Lemma genTree_no_points_witness :
  genTree (T := counting_toolkit) (-5) 1.0%Q 1.0%Q 100 =
  {| branches := detached; entries := [] |}.
Proof.
  apply (genTree_no_points (T := counting_toolkit) (-5) 1.0%Q 1.0%Q 100).
  vm_compute. discriminate.
Defined.

Lemma genTree_prefix_witness :
  firstn (Z.to_nat 2) (entries (genTree (T := counting_toolkit) 5 1.0%Q 1.0%Q 100)) =
  entries (genTree (T := counting_toolkit) 2 1.0%Q 1.0%Q 100).
Proof.
  apply (genTree_prefix (T := counting_toolkit) 2 5 1.0%Q 1.0%Q 100).
  - discriminate.
  - vm_compute. discriminate.
Defined.

(** ** The unsigned counter behind the signed leaf *)

(** X5. Storing the [UInt_t] counter through the /I leaf loses nothing: what is
    stored is an [Int_t], and converting it back to [UInt_t] gives the
    counter. *)
Theorem as_Int_t_round_trip (u : Z) :
  in_UInt_t u ->
  in_Int_t (as_Int_t u) /\ wrap_UInt_t (as_Int_t u) = u.
Proof.
  unfold in_UInt_t, in_Int_t, as_Int_t, wrap_UInt_t.
  assert (Hmin : Int_t_min = - 2147483648) by reflexivity.
  assert (Hmax : Int_t_max = 2147483647) by reflexivity.
  assert (Hmod : UInt_t_modulus = 4294967296) by reflexivity.
  rewrite Hmin, Hmax, Hmod. intros Hu.
  destruct (u <=? 2147483647) eqn:Hle.
  - apply Z.leb_le in Hle. split; [lia |]. apply Z.mod_small. lia.
  - apply Z.leb_gt in Hle. split; [lia |].
    replace (u - 4294967296) with (u + (-1) * 4294967296) by lia.
    rewrite Z_mod_plus_full. apply Z.mod_small. lia.
Qed.

Lemma as_Int_t_round_trip_witness :
  in_Int_t (as_Int_t 4294967295) /\ wrap_UInt_t (as_Int_t 4294967295) = 4294967295.
Proof.
  apply (as_Int_t_round_trip 4294967295).
  unfold in_UInt_t. vm_compute. split; [discriminate | reflexivity].
Defined.

End GenTreeMore.

(* ===================================================================== *)
(** * More on the split expression                                       *)
(* ===================================================================== *)

Module SplitExprMore.
Import MachineInt SplitExpr CrossEvaluation SplitExprFacts.

(** X7. The fold of an event does not depend on the sign of its identifier. *)
Theorem fold_ignores_sign (e k : Z) :
  fold_of splitExpr k (- e) = fold_of splitExpr k e.
Proof.
  now rewrite !fold_of_splitExpr, Z.abs_opp.
Qed.

(** X8. With zero folds the expression divides by zero: no event has a fold. *)
Theorem no_fold_of_zero_folds (e : Z) :
  fold_of splitExpr 0 e = None.
Proof.
  rewrite fold_of_splitExpr.
  destruct (to_int (Z.abs e)) as [a |]; reflexivity.
Qed.

(** X9. With one fold every event is in fold 0. *)
Theorem one_fold_takes_all (e : Z) :
  Z.abs e <= Int_t_max ->
  fold_of splitExpr 1 e = Some 0.
Proof.
  intros He. assert (Hmax : Int_t_max = 2147483647) by reflexivity.
  rewrite fold_of_in_range by lia. now rewrite Z.mod_1_r.
Qed.

Lemma one_fold_takes_all_witness :
  fold_of splitExpr 1 (-12345) = Some 0.
Proof.
  apply (one_fold_takes_all (-12345)). vm_compute. discriminate.
Defined.

(** X10. Identifiers that are a number of folds apart are in the same fold. *)
Theorem fold_is_periodic (e k : Z) :
  0 <= e -> 1 <= k -> e + k <= Int_t_max ->
  fold_of splitExpr k (e + k) = fold_of splitExpr k e.
Proof.
  intros He Hk Hmax.
  rewrite !fold_of_in_range by lia.
  rewrite !Z.abs_eq by lia.
  replace (e + k) with (e + 1 * k) by lia. now rewrite Z_mod_plus_full.
Qed.

Lemma fold_is_periodic_witness :
  fold_of splitExpr 3 (7 + 3) = fold_of splitExpr 3 7.
Proof.
  apply (fold_is_periodic 7 3); vm_compute; discriminate.
Defined.

End SplitExprMore.

(* ===================================================================== *)
(** * The folds of a generated tree of any size                          *)
(* ===================================================================== *)

Module FoldsMore.
Import MachineInt SplitExpr Tree TreeFacts CrossEvaluation.
Import SplitExprFacts CrossEvaluationFacts.

(** In the range of [int], under the two folds of the tutorial, an
    identifier is in fold 1 when it is odd and in fold 0 when it is even. *)
Lemma id_in_fold_parity (e : Z) :
  0 <= e <= Int_t_max ->
  id_in_fold 1 (Some e) = Z.odd e /\ id_in_fold 0 (Some e) = Z.even e.
Proof.
  intros He. assert (Hmax : Int_t_max = 2147483647) by reflexivity.
  unfold id_in_fold, numFolds. rewrite fold_of_in_range by lia.
  rewrite Z.abs_eq by lia. rewrite Zmod_odd, <- Z.negb_odd.
  destruct (Z.odd e); split; reflexivity.
Qed.

(** Among the identifiers 1..N, the two folds share the events evenly; the
    odd one out, if any, is in fold 1. *)
Lemma count_folds (N : nat) :
  Z.of_nat N <= Int_t_max ->
  let ids := map (fun i => Some (Z.of_nat i)) (seq 1 N) in
  let c0 := List.length (filter (id_in_fold 0) ids) in
  let c1 := List.length (filter (id_in_fold 1) ids) in
  (c0 + c1 = N)%nat /\
  c1 = (c0 + if Z.odd (Z.of_nat N) then 1 else 0)%nat.
Proof.
  induction N as [| N IH]; intros Hmax; cbn zeta in *; [split; reflexivity |].
  destruct IH as [Hsum Hdiff]; [lia |].
  rewrite seq_S, !map_app, !filter_app, !length_app. cbn [map filter].
  change (1 + N)%nat with (S N).
  destruct (id_in_fold_parity (Z.of_nat (S N))) as [H1 H0]; [lia |].
  rewrite H1, H0, <- Z.negb_odd.
  rewrite Nat2Z.inj_succ, Z.odd_succ, <- Z.negb_odd.
  destruct (Z.odd (Z.of_nat N)); cbn [negb List.length]; lia.
Qed.

Section WithToolkit.
Context {T : Toolkit}.

(** X11. Whatever the number of points, every event of a generated tree has a
    fold: fold 1 if its identifier is odd, fold 0 if it is even. *)
Theorem generated_events_fold_by_parity
    (nPoints : Z) (offset scale : Double_t) (seed : Z) :
  in_Int_t nPoints ->
  Forall by_parity (eventIDs (genTree nPoints offset scale seed)).
Proof.
  intros [_ Hmax].
  destruct (genTree_rows nPoints offset scale seed) as (_ & _ & _ & Hids).
  unfold eventIDs. rewrite Hids.
  apply Forall_forall. intros oid Hin.
  apply in_map_iff in Hin as (i & <- & Hin). apply in_seq in Hin.
  assert (Hm : Int_t_max = 2147483647) by reflexivity.
  rewrite stored_id_small by lia. unfold by_parity, numFolds.
  rewrite fold_of_in_range by lia.
  rewrite Z.abs_eq by lia. now rewrite Zmod_odd.
Qed.

(** X12. Whatever the number of points, the two folds of a generated tree are
    balanced: fold 0 has nPoints / 2 events and fold 1 has
    (nPoints + 1) / 2, rounded down. *)
Theorem generated_folds_balanced
    (nPoints : Z) (offset scale : Double_t) (seed : Z) :
  0 <= nPoints -> nPoints <= Int_t_max ->
  Z.of_nat (fold_size 0 (genTree nPoints offset scale seed)) = nPoints / 2 /\
  Z.of_nat (fold_size 1 (genTree nPoints offset scale seed)) = (nPoints + 1) / 2.
Proof.
  intros Hn Hmax.
  assert (Hids : eventIDs (genTree nPoints offset scale seed) =
                 map (fun i => Some (Z.of_nat i)) (seq 1 (Z.to_nat nPoints))).
  { unfold eventIDs.
    destruct (genTree_rows nPoints offset scale seed) as (_ & _ & _ & ->).
    apply map_ext_in. intros i Hi. apply in_seq in Hi.
    apply stored_id_small. lia. }
  rewrite !fold_size_eventIDs, Hids.
  destruct (count_folds (Z.to_nat nPoints)) as [Hsum Hdiff]; [lia |].
  cbn zeta in Hsum, Hdiff. rewrite Z2Nat.id in Hdiff by lia.
  set (c0 := List.length (filter (id_in_fold 0) _)) in *.
  set (c1 := List.length (filter (id_in_fold 1) _)) in *.
  pose proof (Zmod_odd nPoints) as Hodd.
  pose proof (Z.div_mod nPoints 2 ltac:(lia)) as Hdm.
  destruct (Z.odd nPoints).
  - split.
    + apply Z.div_unique with (r := 1); lia.
    + apply Z.div_unique with (r := 0); lia.
  - split.
    + apply Z.div_unique with (r := 0); lia.
    + apply Z.div_unique with (r := 1); lia.
Qed.

End WithToolkit.

Lemma generated_events_fold_by_parity_witness :
  Forall by_parity (eventIDs (genTree (T := counting_toolkit) 7 1.0%Q 1.0%Q 100)).
Proof.
  apply (generated_events_fold_by_parity (T := counting_toolkit) 7 1.0%Q 1.0%Q 100).
  unfold in_Int_t. vm_compute. split; discriminate.
Defined.

Lemma generated_folds_balanced_witness :
  Z.of_nat (fold_size 0 (genTree (T := counting_toolkit) 7 1.0%Q 1.0%Q 100)) = 7 / 2 /\
  Z.of_nat (fold_size 1 (genTree (T := counting_toolkit) 7 1.0%Q 1.0%Q 100)) = (7 + 1) / 2.
Proof.
  apply (generated_folds_balanced (T := counting_toolkit) 7 1.0%Q 1.0%Q 100);
    vm_compute; discriminate.
Defined.

End FoldsMore.

(* ===================================================================== *)
(** * More on the two programs                                           *)
(* ===================================================================== *)

Module ProgramsMore.
Import Trace TraceFacts.

Section WithToolkit.
Context {T : Toolkit}.
Import CrossEvaluation CrossEvaluationMain.

(** X13. An interactive run makes the calls of a batch run and then one more,
    which launches the GUI on the output file; both return 0, and [main]
    makes the calls of [TMVACrossEvaluation]. *)
Theorem interactive_is_batch_then_gui (batch : bool) :
  trace (TMVACrossEvaluation false) =
    trace (TMVACrossEvaluation true) ++ [TMVAGui "TMVA.root"] /\
  fst (run (TMVACrossEvaluation batch)) = 0 /\
  run (main batch) = (0, trace (TMVACrossEvaluation batch)).
Proof.
  split; [reflexivity |]. destruct batch; split; reflexivity.
Qed.


End WithToolkit.

Import Simple SimpleReading.

(** X15. The program simple creates two histograms with the same axes, one
    from axis variables and one in place; the first is never filled, fitted
    or written; the second is filled, is fitted and is written, and every
    call that fills, fits or writes a histogram is on the second. *)
Theorem simple_uses_second_histogram :
  exists h1 h2 xaxis yaxis,
    histograms (trace simple) = [(h1, xaxis, yaxis); (h2, xaxis, yaxis)] /\
    h1 <> h2 /\
    positions (touches h1) (trace simple) = [] /\
    positions (fills h2) (trace simple) <> [] /\
    positions (fits h2) (trace simple) <> [] /\
    positions (writes h2) (trace simple) <> [] /\
    positions touches_any (trace simple) = positions (touches h2) (trace simple).
Proof.
  exists 0%nat, 1%nat. eexists. eexists.
  split; [reflexivity |]. split; [discriminate |].
  split; [reflexivity |]. split; [discriminate |].
  split; [discriminate |]. split; [discriminate | reflexivity].
Qed.

Lemma append_empty (s : string) : (s ++ "")%string = s.
Proof.
  induction s as [| c s IH]; [reflexivity |]. cbn [append]. now rewrite IH.
Qed.

(** X16. The option string of the cross validation carries the analysis
    type, the number of folds and the split expression as they are, for
    every analysis type and split expression that are C strings and every
    number of folds up to 2147483647: a per-cent sign in the split
    expression is not read as a conversion of the format. *)
Theorem options_carry_arguments (analysisType splitExpr : string) (numFolds : Z) :
  CrossEvaluation.is_c_str analysisType ->
  CrossEvaluation.is_c_str splitExpr ->
  0 <= numFolds <= MachineInt.Int_t_max ->
  CrossEvaluation.Form
    ("!V"
     ++ ":!Silent"
     ++ ":ModelPersistence"
     ++ ":AnalysisType=%s"
     ++ ":NumFolds=%i"
     ++ ":SplitExpr=%s")
    [CrossEvaluation.ArgS analysisType; CrossEvaluation.ArgI numFolds;
     CrossEvaluation.ArgS splitExpr] =
  ("!V:!Silent:ModelPersistence:AnalysisType=" ++ analysisType
   ++ ":NumFolds=" ++ CrossEvaluation.decimal numFolds
   ++ ":SplitExpr=" ++ splitExpr)%string.
Proof.
  intros Ha Hs Hn.
  cbn [append CrossEvaluation.Form Ascii.eqb Bool.eqb zero].
  rewrite Ha, Hs, append_empty.
  assert (Hi : CrossEvaluation.as_int numFolds = numFolds).
  { pose proof (TreeFacts.stored_id_small numFolds Hn) as H.
    unfold Tree.stored_id in H. now injection H. }
  now rewrite Hi.
Qed.

Lemma options_carry_arguments_witness :
  CrossEvaluation.cvOptions =
  ("!V:!Silent:ModelPersistence:AnalysisType=" ++ CrossEvaluation.analysisType
   ++ ":NumFolds=" ++ CrossEvaluation.decimal CrossEvaluation.numFolds
   ++ ":SplitExpr=" ++ CrossEvaluation.splitExpr)%string.
Proof.
  apply (options_carry_arguments CrossEvaluation.analysisType
           CrossEvaluation.splitExpr CrossEvaluation.numFolds).
  - reflexivity.
  - reflexivity.
  - vm_compute. split; discriminate.
Defined.

(** [Form] at the edges of its conversions. *)
Example Form_unsigned_as_int :
  CrossEvaluation.Form "NumFolds=%i" [CrossEvaluation.ArgI 2147483648] =
  "NumFolds=-2147483648".
Proof. vm_compute. reflexivity. Qed.

Example Form_percent :
  CrossEvaluation.Form "100%%:%s" [CrossEvaluation.ArgS "2.5%"] = "100%:2.5%".
Proof. vm_compute. reflexivity. Qed.

End ProgramsMore.
